(** * Cobb-Douglas demand notebook: [utility], [isoquant], [budgetconst], [find_optimal]

    Two embeddings of the functions of
    [notebooks/demo-utility-budgetconstraint.ipynb] (Python 3 kernel).

    Part I reads the notebook's arithmetic as exact real arithmetic: [/],
    [*], [+] and [-] are the field operations and [**] is the real power,
    inside Python's case analysis (division by zero, [0 ** negative],
    complex results).  It says what the formulas mean, not what the
    interpreter computes: there is no rounding, overflow or underflow in
    it.

    Part II ([B64] and [Binary64]) is the code as it runs.  Python floats
    are binary64 values; [/], [*], [+] and [-] round, overflow to an
    infinity, underflow to zero and give NaN as IEEE 754 has it; [**] is
    the interpreter's case analysis around the platform's [pow], whose
    values are left open, with [OverflowError] where it overflows; and the
    name [utility] is looked up among the module's globals each time
    [find_optimal] is called.  Integer arguments are taken as the floats
    they convert to. *)

From Stdlib Require Import Reals Lra Lia ZArith String.
From Stdlib Require Bool Floats Uint63.

Open Scope R_scope.

(** * Part I: the formulas in exact arithmetic *)

(** ** Python values and the evaluation monad *)

Module Py.

Inductive exn : Type :=
| ZeroDivisionError.

Record complex : Type := Cplx { real : R; imag : R }.

(** A scalar as the notebook sees it: a float (or an int, idealised alike)
    or a complex number. *)
Inductive pyval : Type :=
| PyFloat (x : R)
| PyComplex (z : complex).

(** The global names of the notebook's module. *)
Definition namespace : Type := string -> option pyval.

Inductive outcome (A : Type) : Type :=
| Return (a : A)
| Raise (e : exn).
Arguments Return {A} a.
Arguments Raise {A} e.

Definition M (A : Type) : Type := namespace -> outcome A * namespace.

Definition ret {A} (a : A) : M A := fun g => (Return a, g).

Definition raise {A} (e : exn) : M A := fun g => (Raise e, g).

Definition bind {A B} (c : M A) (k : A -> M B) : M B :=
  fun g =>
    match c g with
    | (Return a, g') => k a g'
    | (Raise e, g') => (Raise e, g')
    end.

(** A module-level assignment [x = v]. *)
Definition assign (x : string) (v : pyval) : M unit :=
  fun g => (Return tt, fun y => if String.eqb y x then Some v else g y).

End Py.

Import Py.

Declare Scope py_scope.
Delimit Scope py_scope with py.
Notation "x <- c ;; k" := (bind c (fun x => k))
  (at level 61, c at next level, right associativity) : py_scope.
Notation "c ;;; k" := (bind c (fun _ => k))
  (at level 61, right associativity) : py_scope.
Open Scope py_scope.

(** ** Arithmetic of the interpreter *)

(** [float.__truediv__]: [a / b] on real scalars. *)
Definition float_truediv (a b : R) : M R :=
  if Req_dec_T b 0 then raise ZeroDivisionError else ret (a / b).

Definition c_1 : complex := Cplx 1 0.

(** Complex product. *)
Definition c_prod (a b : complex) : complex :=
  Cplx (real a * real b - imag a * imag b)
       (real a * imag b + imag a * real b).

(** Complex quotient: divides top and bottom by the larger component of the
    divisor; a zero divisor is an error. *)
Definition c_quot (a b : complex) : M complex :=
  if Rle_dec (Rabs (imag b)) (Rabs (real b)) then
    if Req_dec_T (Rabs (real b)) 0 then raise ZeroDivisionError
    else
      let ratio := imag b / real b in
      let denom := real b + imag b * ratio in
      ret (Cplx ((real a + imag a * ratio) / denom)
                ((imag a - real a * ratio) / denom))
  else
    let ratio := real b / imag b in
    let denom := real b * ratio + imag b in
    ret (Cplx ((real a * ratio + imag a) / denom)
              ((imag a * ratio - real a) / denom)).

(** Two-argument arctangent and the Euclidean norm of the C library. *)
Definition atan2 (y x : R) : R :=
  if Rlt_dec 0 x then atan (y / x)
  else if Rlt_dec x 0 then
    (if Rle_dec 0 y then atan (y / x) + PI else atan (y / x) - PI)
  else if Rlt_dec 0 y then PI / 2
  else if Rlt_dec y 0 then - (PI / 2)
  else 0.

Definition hypot (x y : R) : R := sqrt (x * x + y * y).

(** Complex power with a real exponent, in polar form. *)
Definition c_pow (a : complex) (b : R) : M complex :=
  if Req_dec_T b 0 then ret c_1
  else
    match Req_dec_T (real a) 0, Req_dec_T (imag a) 0 with
    | left _, left _ =>
        if Rlt_dec b 0 then raise ZeroDivisionError else ret (Cplx 0 0)
    | _, _ =>
        let vabs := hypot (real a) (imag a) in
        let len := Rpower vabs b in
        let at_ := atan2 (imag a) (real a) in
        let phase := at_ * b in
        ret (Cplx (len * cos phase) (len * sin phase))
    end.

(** Square-and-multiply over the bits of the exponent, lowest bit first. *)
Fixpoint c_powu_loop (r p : complex) (n : positive) : complex :=
  match n with
  | xH => c_prod r p
  | xO n' => c_powu_loop r (c_prod p p) n'
  | xI n' => c_powu_loop (c_prod r p) (c_prod p p) n'
  end.

Definition c_powu (x : complex) (n : Z) : complex :=
  match n with
  | Zpos n' => c_powu_loop c_1 x n'
  | _ => c_1
  end.

(** Complex power with an integer exponent: small exponents by repeated
    multiplication, large ones in polar form. *)
Definition c_powi (x : complex) (n : Z) : M complex :=
  if (Z.ltb 100 n || Z.ltb n (-100))%bool then c_pow x (IZR n)
  else if Z.ltb 0 n then ret (c_powu x n)
  else c_quot c_1 (c_powu x (- n)).

(** [floor w == w]: the exponent is a whole number. *)
Definition is_integral (w : R) : {w = IZR (Int_part w)} + {w <> IZR (Int_part w)} :=
  Req_dec_T w (IZR (Int_part w)).

(** [complex.__pow__] with a real exponent. *)
Definition complex_pow (a : complex) (w : R) : M complex :=
  if is_integral w then c_powi a (Int_part w) else c_pow a w.

(** [float.__pow__]: [v ** w] on real scalars. *)
Definition float_pow (v w : R) : M pyval :=
  if Req_dec_T w 0 then ret (PyFloat 1)
  else if Req_dec_T v 0 then
    (if Rlt_dec w 0 then raise ZeroDivisionError else ret (PyFloat 0))
  else if Rlt_dec v 0 then
    if is_integral w then
      let ix := if Req_dec_T (- v) 1 then 1 else Rpower (- v) w in
      ret (PyFloat (if Z.odd (Int_part w) then - ix else ix))
    else
      z <- complex_pow (Cplx v 0) w ;;
      ret (PyComplex z)
  else
    let ix := if Req_dec_T v 1 then 1 else Rpower v w in
    ret (PyFloat ix).

Definition to_complex (v : pyval) : complex :=
  match v with
  | PyFloat x => Cplx x 0
  | PyComplex z => z
  end.

(** [v * w]: a float product unless one operand is complex. *)
Definition py_mul (v w : pyval) : pyval :=
  match v, w with
  | PyFloat a, PyFloat b => PyFloat (a * b)
  | _, _ => PyComplex (c_prod (to_complex v) (to_complex w))
  end.

(** [v / w]. *)
Definition py_truediv (v w : pyval) : M pyval :=
  match v, w with
  | PyFloat a, PyFloat b => x <- float_truediv a b ;; ret (PyFloat x)
  | _, _ => z <- c_quot (to_complex v) (to_complex w) ;; ret (PyComplex z)
  end.

(** [v ** w] with a real exponent. *)
Definition py_pow (v : pyval) (w : R) : M pyval :=
  match v with
  | PyFloat a => float_pow a w
  | PyComplex z => c <- complex_pow z w ;; ret (PyComplex c)
  end.

(** ** The notebook *)

(** [def utility(x1,alpha,x2,beta): return (x1**alpha)*(x2**beta)] *)
Definition utility (x1 alpha x2 beta : R) : M pyval :=
  a <- float_pow x1 alpha ;;
  b <- float_pow x2 beta ;;
  ret (py_mul a b).

(** [def isoquant(x1,alpha,beta,u): return (u/(x1**alpha))**(1/beta)] *)
Definition isoquant (x1 alpha beta : R) (u : pyval) : M pyval :=
  a <- float_pow x1 alpha ;;
  q <- py_truediv u a ;;
  e <- float_truediv 1 beta ;;
  py_pow q e.

(** [def budgetconst(m,p1,p2,x1): return (m/p2)-(p1/p2)*x1] *)
Definition budgetconst (m p1 p2 x1 : R) : M R :=
  a <- float_truediv m p2 ;;
  b <- float_truediv p1 p2 ;;
  ret (a - b * x1).

(** [def find_optimal(p1,p2,alpha,beta,m=1)]: the keyword argument is an
    [option], [None] standing for a call that leaves [m] out. *)
Definition find_optimal (p1 p2 alpha beta : R) (m : option R) : M (R * R * pyval) :=
  let m := match m with Some v => v | None => 1 end in
  r <- float_truediv alpha beta ;;
  x2 <- float_truediv m (r * p2 + p2) ;;
  r' <- float_truediv alpha beta ;;
  q <- float_truediv p2 p1 ;;
  let x1 := r' * q * x2 in
  u <- utility x1 alpha x2 beta ;;
  ret (x1, x2, u).

(** The parameter cell: [alpha = 0.5], [beta = 0.5], [p1 = 1], [p2 = 1],
    [m = 10] at module level. *)
Definition parameters : M unit :=
  assign "alpha" (PyFloat 0.5) ;;;
  assign "beta" (PyFloat 0.5) ;;;
  assign "p1" (PyFloat 1) ;;;
  assign "p2" (PyFloat 1) ;;;
  assign "m" (PyFloat 10).

(** The positions of the five sliders that call [interact_figure]:
    [@interact(alpha=(0.01,0.99,0.01), beta=(0.01,0.99,0.01),
    p1=(1,10,1), p2=(1,10,1), m=(1,24,1))], each a (min, max, step)
    triple. *)
Definition float_slider (v : R) : Prop :=
  exists i : Z, (1 <= i <= 99)%Z /\ v = IZR i * 0.01.

Definition int_slider (hi : Z) (v : R) : Prop :=
  exists i : Z, (1 <= i <= hi)%Z /\ v = IZR i.

Definition slider_setting (alpha beta p1 p2 m : R) : Prop :=
  float_slider alpha /\ float_slider beta
  /\ int_slider 10 p1 /\ int_slider 10 p2 /\ int_slider 24 m.

(** The ratio [x1/x2] of the bundle [find_optimal] returns, as a caller
    computes it. *)
Definition proportion (p1 p2 alpha beta : R) (m : option R) : M R :=
  b <- find_optimal p1 p2 alpha beta m ;;
  let '(x1, x2, _) := b in
  float_truediv x1 x2.

(** ** Outcomes of a computation *)

(** [c] returns [a] and leaves the namespace as it found it. *)
Definition returns {A} (c : M A) (a : A) : Prop :=
  forall g, c g = (Return a, g).

(** [c] raises [e] and leaves the namespace as it found it. *)
Definition raises {A} (c : M A) (e : exn) : Prop :=
  forall g, c g = (Raise e, g).

(** [c] neither reads nor writes the namespace. *)
Definition pure {A} (c : M A) : Prop :=
  exists o, forall g, c g = (o, g).

Definition empty : namespace := fun _ => None.

(** * Part II: the code in binary64 *)

(** ** The model *)

Module B64.

Import Bool Floats.
Local Open Scope float_scope.
Set Warnings "-inexact-float".

(** *** Values, exceptions, the platform *)

Inductive exn : Type :=
| ZeroDivisionError
| OverflowError
| ValueError
| NameError
| TypeError.

(** What a call into the C library leaves in [errno]. *)
Inductive errno : Type :=
| E0
| ERANGE
| EDOM.

Record complex : Type := Cplx { real : float; imag : float }.

Inductive pyval : Type :=
| PyFloat (x : float)
| PyComplex (z : complex).

Inductive outcome (A : Type) : Type :=
| Return (a : A)
| Raise (e : exn).
Arguments Return {A} a.
Arguments Raise {A} e.

(** The functions of the platform's C library that [**] reaches.  Their
    values are not fixed by the notebook or by Python, so they are left
    open: every statement holds for whatever the platform computes. *)
Record libm : Type := Libm {
  pow : float -> float -> float * errno;
  hypot : float -> float -> float * errno;
  atan2 : float -> float -> float * errno;
  cos : float -> float * errno;
  sin : float -> float * errno
}.

(** A callable of four float arguments, as [utility] is called. *)
Definition callable : Type :=
  libm -> float -> float -> float -> float -> outcome pyval.

Inductive obj : Type :=
| Value (v : pyval)
| Function (f : callable).

(** The interpreter's state: the platform and the module's global names. *)
Record world : Type := World {
  platform : libm;
  globals : string -> option obj
}.

Definition M (A : Type) : Type := world -> outcome A * world.

Definition ret {A} (a : A) : M A := fun w => (Return a, w).

Definition raise {A} (e : exn) : M A := fun w => (Raise e, w).

Definition bind {A B} (c : M A) (k : A -> M B) : M B :=
  fun w =>
    match c w with
    | (Return a, w') => k a w'
    | (Raise e, w') => (Raise e, w')
    end.

Notation "x <- c ;; k" := (bind c (fun x => k))
  (at level 61, c at next level, right associativity).

(** A call into the C library. *)
Definition libm_call {A} (f : libm -> A) : M A :=
  fun w => (Return (f (platform w)), w).

(** Reading a global name. *)
Definition load_global (x : string) : M obj :=
  fun w =>
    match globals w x with
    | Some o => (Return o, w)
    | None => (Raise NameError, w)
    end.

(** Calling an object with four floats. *)
Definition call (o : obj) (a b c d : float) : M pyval :=
  match o with
  | Function f => fun w => (f (platform w) a b c d, w)
  | Value _ => raise TypeError
  end.

(** A module-level assignment [x = o]. *)
Definition assign (x : string) (o : obj) : M unit :=
  fun w =>
    (Return tt,
     {| platform := platform w;
        globals := fun y => if String.eqb y x then Some o else globals w y |}).

(** *** Floats as the interpreter inspects them *)

(** [floor(w) == w]. *)
Definition is_integral (w : float) : bool :=
  match Prim2SF w with
  | S754_zero _ => true
  | S754_infinity _ => true
  | S754_nan => false
  | S754_finite _ m e =>
      (0 <=? e)%Z || (Z.land (Zpos m) (Z.ones (- e)) =? 0)%Z
  end.

(** [DOUBLE_IS_ODD_INTEGER]: [fmod(fabs(w), 2.0) == 1.0]. *)
Definition is_odd_integer (w : float) : bool :=
  match Prim2SF w with
  | S754_finite _ m e =>
      if (0 <? e)%Z then false
      else (Z.land (Zpos m) (Z.ones (- e)) =? 0)%Z
           && Z.odd (Z.shiftr (Zpos m) (- e))
  | _ => false
  end.

(** [(long) w] where the cast is exact: a whole number within 64 bits. *)
Definition to_long (w : float) : option Z :=
  match Prim2SF w with
  | S754_zero _ => Some 0%Z
  | S754_finite s m e =>
      if is_integral w then
        let n := Z.shiftl (Zpos m) e in
        let n := if s then (- n)%Z else n in
        if ((- 2 ^ 63 <=? n) && (n <? 2 ^ 63))%Z then Some n else None
      else None
  | _ => None
  end.

Definition copysign_zero (x : float) : float :=
  if get_sign x then neg_zero else zero.

(** [errno] after a further library call: an error code sticks until it
    is overwritten. *)
Definition then_errno (e1 e2 : errno) : errno :=
  match e2 with E0 => e1 | _ => e2 end.

(** *** Arithmetic of the interpreter *)

(** [float.__truediv__]. *)
Definition float_truediv (a b : float) : M float :=
  if b =? 0 then raise ZeroDivisionError else ret (a / b).

Definition c_1 : complex := Cplx 1 0.

Definition c_prod (a b : complex) : complex :=
  Cplx (real a * real b - imag a * imag b)
       (real a * imag b + imag a * real b).

(** [_Py_c_quot]: the quotient and the [errno] it sets. *)
Definition c_quot (a b : complex) : complex * errno :=
  let abs_breal := if real b <? 0 then - real b else real b in
  let abs_bimag := if imag b <? 0 then - imag b else imag b in
  if abs_bimag <=? abs_breal then
    if abs_breal =? 0 then (Cplx 0 0, EDOM)
    else
      let ratio := imag b / real b in
      let denom := real b + imag b * ratio in
      (Cplx ((real a + imag a * ratio) / denom)
            ((imag a - real a * ratio) / denom), E0)
  else
    let ratio := real b / imag b in
    let denom := real b * ratio + imag b in
    (Cplx ((real a * ratio + imag a) / denom)
          ((imag a * ratio - real a) / denom), E0).

(** [_Py_c_pow] with a real exponent (the exponent of [**] here always
    comes from a float, so its imaginary part is 0.0). *)
Definition c_pow (L : libm) (a : complex) (b : float) : complex * errno :=
  if b =? 0 then (c_1, E0)
  else if (real a =? 0) && (imag a =? 0) then
    (Cplx 0 0, if b <? 0 then EDOM else E0)
  else
    let '(vabs, e1) := hypot L (real a) (imag a) in
    let '(len, e2) := pow L vabs b in
    let '(at_, e3) := atan2 L (imag a) (real a) in
    let phase := at_ * b in
    let '(c, e4) := cos L phase in
    let '(s, e5) := sin L phase in
    (Cplx (len * c) (len * s),
     then_errno (then_errno (then_errno (then_errno e1 e2) e3) e4) e5).

(** [c_powu]: square and multiply over the bits of the exponent. *)
Fixpoint c_powu_loop (r p : complex) (n : positive) : complex :=
  match n with
  | xH => c_prod r p
  | xO n' => c_powu_loop r (c_prod p p) n'
  | xI n' => c_powu_loop (c_prod r p) (c_prod p p) n'
  end.

Definition c_powu (x : complex) (n : Z) : complex :=
  match n with
  | Zpos n' => c_powu_loop c_1 x n'
  | _ => c_1
  end.

(** [c_powi]; [w] is the exponent [n] as a double. *)
Definition c_powi (L : libm) (x : complex) (n : Z) (w : float)
  : complex * errno :=
  if ((100 <? n) || (n <? -100))%Z then c_pow L x w
  else if (0 <? n)%Z then (c_powu x n, E0)
  else c_quot c_1 (c_powu x (- n)).

Definition is_huge (x : float) : bool :=
  (x =? infinity) || (x =? neg_infinity).

(** [complex.__pow__] with a real exponent. *)
Definition complex_pow (a : complex) (w : float) : M complex :=
  r <- libm_call (fun L =>
         match to_long w with
         | Some n => c_powi L a n w
         | None => c_pow L a w
         end) ;;
  let '(p, e) := r in
  let e :=
    if is_huge (real p) || is_huge (imag p)
    then match e with E0 => ERANGE | _ => e end
    else match e with ERANGE => E0 | _ => e end in
  match e with
  | EDOM => raise ZeroDivisionError
  | ERANGE => raise OverflowError
  | E0 => ret p
  end.

(** [float.__pow__]. *)
Definition float_pow (iv iw : float) : M pyval :=
  if iw =? 0 then ret (PyFloat 1)
  else if is_nan iv then ret (PyFloat iv)
  else if is_nan iw then ret (PyFloat (if iv =? 1 then 1 else iw))
  else if is_infinity iw then
    let iv := abs iv in
    if iv =? 1 then ret (PyFloat 1)
    else if Bool.eqb (0 <? iw) (1 <? iv) then ret (PyFloat (abs iw))
    else ret (PyFloat 0)
  else if is_infinity iv then
    let iw_is_odd := is_odd_integer iw in
    if 0 <? iw then ret (PyFloat (if iw_is_odd then iv else abs iv))
    else ret (PyFloat (if iw_is_odd then copysign_zero iv else 0))
  else if iv =? 0 then
    if iw <? 0 then raise ZeroDivisionError
    else ret (PyFloat (if is_odd_integer iw then iv else 0))
  else if (iv <? 0) && negb (is_integral iw) then
    z <- complex_pow (Cplx iv 0) iw ;;
    ret (PyComplex z)
  else
    let negate_result := (iv <? 0) && is_odd_integer iw in
    let iv := if iv <? 0 then - iv else iv in
    if iv =? 1 then ret (PyFloat (if negate_result then -1 else 1))
    else
      r <- libm_call (fun L => pow L iv iw) ;;
      let '(ix, e) := r in
      let e :=
        match e with
        | E0 => if is_huge ix then ERANGE else E0
        | ERANGE => if ix =? 0 then E0 else ERANGE
        | EDOM => EDOM
        end in
      let ix := if negate_result then - ix else ix in
      match e with
      | E0 => ret (PyFloat ix)
      | ERANGE => raise OverflowError
      | EDOM => raise ValueError
      end.

Definition to_complex (v : pyval) : complex :=
  match v with
  | PyFloat x => Cplx x 0
  | PyComplex z => z
  end.

(** [v * w]. *)
Definition py_mul (v w : pyval) : pyval :=
  match v, w with
  | PyFloat a, PyFloat b => PyFloat (a * b)
  | _, _ => PyComplex (c_prod (to_complex v) (to_complex w))
  end.

(** [v / w]. *)
Definition py_truediv (v w : pyval) : M pyval :=
  match v, w with
  | PyFloat a, PyFloat b => x <- float_truediv a b ;; ret (PyFloat x)
  | _, _ =>
      let '(z, e) := c_quot (to_complex v) (to_complex w) in
      match e with
      | EDOM => raise ZeroDivisionError
      | _ => ret (PyComplex z)
      end
  end.

(** [v ** w] with a float exponent. *)
Definition py_pow (v : pyval) (w : float) : M pyval :=
  match v with
  | PyFloat a => float_pow a w
  | PyComplex z => c <- complex_pow z w ;; ret (PyComplex c)
  end.

(** *** The notebook *)

(** [def utility(x1,alpha,x2,beta): return (x1**alpha)*(x2**beta)] *)
Definition utility (x1 alpha x2 beta : float) : M pyval :=
  a <- float_pow x1 alpha ;;
  b <- float_pow x2 beta ;;
  ret (py_mul a b).

(** [def isoquant(x1,alpha,beta,u): return (u/(x1**alpha))**(1/beta)] *)
Definition isoquant (x1 alpha beta : float) (u : pyval) : M pyval :=
  a <- float_pow x1 alpha ;;
  q <- py_truediv u a ;;
  e <- float_truediv 1 beta ;;
  py_pow q e.

(** [def budgetconst(m,p1,p2,x1): return (m/p2)-(p1/p2)*x1] *)
Definition budgetconst (m p1 p2 x1 : float) : M float :=
  a <- float_truediv m p2 ;;
  b <- float_truediv p1 p2 ;;
  ret (a - b * x1).

(** [def find_optimal(p1,p2,alpha,beta,m=1)]; the name [utility] is
    looked up among the globals when the call is made. *)
Definition find_optimal (p1 p2 alpha beta : float) (m : option float)
  : M (float * float * pyval) :=
  let m := match m with Some v => v | None => 1 end in
  r <- float_truediv alpha beta ;;
  x2 <- float_truediv m (r * p2 + p2) ;;
  r' <- float_truediv alpha beta ;;
  q <- float_truediv p2 p1 ;;
  let x1 := r' * q * x2 in
  f <- load_global "utility" ;;
  u <- call f x1 alpha x2 beta ;;
  ret (x1, x2, u).

(** The function object that [def utility] creates: its body reads no
    global name. *)
Definition utility_function : callable :=
  fun L x1 alpha x2 beta =>
    fst (utility x1 alpha x2 beta {| platform := L; globals := fun _ => None |}).

(** The globals once the notebook's cells have run. *)
Definition notebook_globals : string -> option obj :=
  fun x =>
    if String.eqb x "utility" then Some (Function utility_function)
    else if String.eqb x "alpha" then Some (Value (PyFloat 0.5))
    else if String.eqb x "beta" then Some (Value (PyFloat 0.5))
    else if String.eqb x "p1" then Some (Value (PyFloat 1))
    else if String.eqb x "p2" then Some (Value (PyFloat 1))
    else if String.eqb x "m" then Some (Value (PyFloat 10))
    else None.

Definition notebook (L : libm) : world :=
  {| platform := L; globals := notebook_globals |}.

(** The outcome of a computation in the notebook on platform [L]. *)
Definition run {A} (L : libm) (c : M A) : outcome A := fst (c (notebook L)).

(** A platform to exhibit behaviours on: its [pow] is correctly rounded
    for the exponents 0.5 (the square root) and 1, and reports a domain
    error elsewhere. *)
Definition sample_libm : libm :=
  {| pow := fun x y =>
       if y =? 0.5 then (sqrt x, E0)
       else if y =? 1 then (x, E0)
       else (nan, EDOM);
     hypot := fun x y => (sqrt (x * x + y * y), E0);
     atan2 := fun _ _ => (nan, EDOM);
     cos := fun _ => (nan, EDOM);
     sin := fun _ => (nan, EDOM) |}.


(** The value of [find_optimal] in terms of [utility]'s. *)
Definition with_bundle (x1 x2 : float) (o : outcome pyval)
  : outcome (float * float * pyval) :=
  match o with
  | Return u => Return (x1, x2, u)
  | Raise e => Raise e
  end.

(** The closed form as the code evaluates it, operation by operation. *)
Definition x2_of (p2 alpha beta m : float) : float :=
  m / (alpha / beta * p2 + p2).

Definition x1_of (p1 p2 alpha beta m : float) : float :=
  alpha / beta * (p2 / p1) * x2_of p2 alpha beta m.

(** The ratio [x1/x2] of the bundle [find_optimal] returns, as a caller
    computes it. *)
Definition proportion (p1 p2 alpha beta : float) (m : option float) : M float :=
  b <- find_optimal p1 p2 alpha beta m ;;
  let '(x1, x2, _) := b in
  float_truediv x1 x2.


(** *** The sliders of the interactive figure *)

Definition of_nat (k : nat) : float := of_uint63 (Uint63.of_Z (Z.of_nat k)).

(** Position [i] of a float slider [(0.01, 0.99, 0.01)]: the double nearest
    to [i / 100]; position [k] of an int slider is [k]. *)
Definition float_slider_value (i : nat) : float := of_nat i / 100.

Definition float_slider (v : float) : Prop :=
  exists i, (1 <= i <= 99)%nat /\ v = float_slider_value i.

Definition int_slider (hi : nat) (v : float) : Prop :=
  exists k, (1 <= k <= hi)%nat /\ v = of_nat k.

Definition slider_setting (alpha beta p1 p2 m : float) : Prop :=
  float_slider alpha /\ float_slider beta
  /\ int_slider 10 p1 /\ int_slider 10 p2 /\ int_slider 24 m.

(** [P 0 && ... && P (n-1)]. *)
Fixpoint all_below (n : nat) (P : nat -> bool) : bool :=
  match n with
  | O => true
  | S k => P k && all_below k P
  end.

(** [P] at every position of the five sliders. *)
Definition all_settings (P : float -> float -> float -> float -> float -> bool)
  : bool :=
  all_below 99 (fun i => let alpha := float_slider_value (S i) in
  all_below 99 (fun j => let beta := float_slider_value (S j) in
  all_below 10 (fun k => let p1 := of_nat (S k) in
  all_below 10 (fun l => let p2 := of_nat (S l) in
  all_below 24 (fun n => P alpha beta p1 p2 (of_nat (S n))))))).

(** What is checked of the bundle at one setting: no division fails, both
    quantities are positive and below 24, the bundle costs [m] to within
    [2^-50 * m], and the budget line at [x1] is within [2^-46] of [x2]. *)
Definition setting_ok (alpha beta p1 p2 m : float) : bool :=
  let x2 := x2_of p2 alpha beta m in
  let x1 := x1_of p1 p2 alpha beta m in
  negb ((beta =? 0) || (alpha / beta * p2 + p2 =? 0) || (p1 =? 0))
  && negb (p2 =? 0) && negb (x2 =? 0)
  && (0 <? x1) && (x1 <? 24) && (0 <? x2) && (x2 <? 24)
  && (abs (x1 * p1 + x2 * p2 - m) <=? 0x1p-50 * m)
  && (abs (m / p2 - p1 / p2 * x1 - x2) <=? 0x1p-46).



(** *** The specification's readings, for the counterexamples *)

Definition positive5 (p1 p2 alpha beta m : float) : Prop :=
  (0 <? alpha) = true /\ (0 <? beta) = true /\ (0 <? p1) = true
  /\ (0 <? p2) = true /\ (0 <? m) = true.

(** C1 as stated: on positive inputs [find_optimal] returns the closed form
    and a [u] that compares equal to what [utility] returns. *)
Definition closed_form_on_positive : Prop :=
  forall L p1 p2 alpha beta m,
    positive5 p1 p2 alpha beta m ->
    exists x1 x2 u u',
      run L (find_optimal p1 p2 alpha beta (Some m)) = Return (x1, x2, PyFloat u)
      /\ (x2 =? x2_of p2 alpha beta m) = true
      /\ (x1 =? x1_of p1 p2 alpha beta m) = true
      /\ run L (utility x1 alpha x2 beta) = Return (PyFloat u')
      /\ (u =? u') = true.


(** C3 as stated: a non-positive argument ends in an exception. *)
Definition rejects_non_positive : Prop :=
  forall L p1 p2 alpha beta m,
    (alpha <=? 0) = true \/ (beta <=? 0) = true \/ (p1 <=? 0) = true
    \/ (p2 <=? 0) = true \/ (m <=? 0) = true ->
    exists e, run L (find_optimal p1 p2 alpha beta (Some m)) = Raise e.


(** C5 as stated, on platform [L]. *)
Definition returns_5_5_5 (L : libm) : Prop :=
  run L (find_optimal 1 1 0.5 0.5 (Some 10)) = Return (5, 5, PyFloat 5).



(** C8 as stated, in its weaker form: the quantities are non-negative. *)
Definition bundle_non_negative : Prop :=
  forall L p1 p2 alpha beta m,
    positive5 p1 p2 alpha beta m ->
    exists x1 x2 u,
      run L (find_optimal p1 p2 alpha beta (Some m)) = Return (x1, x2, u)
      /\ (0 <=? x1) = true /\ (0 <=? x2) = true.




(** Not negative: zero, positive, infinite or NaN. *)
Definition not_negative (x : float) : Prop := (x <? 0) = false.

(** A float whose sign bit is clear, or NaN, in the specification's view. *)
Definition nonneg_sf (x : spec_float) : Prop :=
  match x with
  | S754_nan => True
  | S754_zero s | S754_infinity s | S754_finite s _ _ => s = false
  end.

Definition nonneg (x : float) : Prop := nonneg_sf (Prim2SF x).

End B64.

(** * Part I, continued: the formulas in exact arithmetic *)

(** ** Outcomes *)

Section Outcomes.

Context {A B : Type}.
Implicit Types (c : M A) (k : A -> M B).

Lemma returns_ret (a : A) : returns (ret a) a.
Proof. intro g. reflexivity. Qed.

Lemma raises_raise (e : exn) : raises (@raise A e) e.
Proof. intro g. reflexivity. Qed.

Lemma returns_bind c k a b :
  returns c a -> returns (k a) b -> returns (bind c k) b.
Proof. intros Hc Hk g. unfold bind. rewrite Hc. apply Hk. Qed.

Lemma raises_bind c k e : raises c e -> raises (bind c k) e.
Proof. intros Hc g. unfold bind. rewrite Hc. reflexivity. Qed.

Lemma raises_bind_after c k a e :
  returns c a -> raises (k a) e -> raises (bind c k) e.
Proof. intros Hc Hk g. unfold bind. rewrite Hc. apply Hk. Qed.

Lemma returns_pure c a : returns c a -> pure c.
Proof. intro H. exists (Return a). exact H. Qed.

Lemma raises_pure c e : raises c e -> pure c.
Proof. intro H. exists (Raise e). exact H. Qed.

Lemma pure_bind c k : pure c -> (forall a, pure (k a)) -> pure (bind c k).
Proof.
  intros [o Ho] Hk. destruct o as [a | e].
  - destruct (Hk a) as [o' Ho']. exists o'. intro g.
    unfold bind. rewrite Ho. apply Ho'.
  - exists (Raise e). intro g. unfold bind. rewrite Ho. reflexivity.
Qed.

Lemma returns_eq c a a' : a = a' -> returns c a -> returns c a'.
Proof. intros <-. exact (fun H => H). Qed.

Lemma returns_inj c a a' : returns c a -> returns c a' -> a = a'.
Proof.
  intros H H'. specialize (H empty). rewrite (H' empty) in H.
  congruence.
Qed.

Lemma returns_not_raises c a e : returns c a -> ~ raises c e.
Proof.
  intros H H'. specialize (H empty). rewrite (H' empty) in H.
  discriminate.
Qed.

End Outcomes.

Lemma pure_ret {A} (a : A) : pure (ret a).
Proof. exact (returns_pure _ _ (returns_ret a)). Qed.

Lemma pure_raise {A} (e : exn) : pure (@raise A e).
Proof. exact (raises_pure _ _ (raises_raise e)). Qed.

Create HintDb pure.
#[local] Hint Resolve pure_ret pure_raise : pure.

(** ** What the arithmetic does *)

Lemma float_truediv_returns (a b : R) :
  b <> 0 -> returns (float_truediv a b) (a / b).
Proof.
  intro Hb. unfold float_truediv.
  destruct (Req_dec_T b 0) as [E | _]; [contradiction | apply returns_ret].
Qed.

Lemma float_truediv_raises (a b : R) :
  b = 0 -> raises (float_truediv a b) ZeroDivisionError.
Proof.
  intro Hb. unfold float_truediv.
  destruct (Req_dec_T b 0) as [_ | N]; [apply raises_raise | contradiction].
Qed.

Lemma Rpower_base_1 (w : R) : Rpower 1 w = 1.
Proof. unfold Rpower. rewrite ln_1, Rmult_0_r. apply exp_0. Qed.

Lemma Rpower_pos (x y : R) : 0 < Rpower x y.
Proof. unfold Rpower. apply exp_pos. Qed.

(** A positive base: the real power, whatever the exponent. *)
Lemma float_pow_pos (v w : R) :
  0 < v -> returns (float_pow v w) (PyFloat (Rpower v w)).
Proof.
  intro Hv. unfold float_pow.
  destruct (Req_dec_T w 0) as [-> | _].
  - rewrite Rpower_O by assumption. apply returns_ret.
  - destruct (Req_dec_T v 0) as [E | _]; [lra |].
    destruct (Rlt_dec v 0) as [L | _]; [lra |].
    destruct (Req_dec_T v 1) as [-> | _].
    + rewrite Rpower_base_1. apply returns_ret.
    + apply returns_ret.
Qed.

(** [v ** 0] is 1 for every base, zero included. *)
Lemma float_pow_exp_0 (v : R) : returns (float_pow v 0) (PyFloat 1).
Proof.
  unfold float_pow.
  destruct (Req_dec_T 0 0) as [_ | N]; [apply returns_ret | contradiction].
Qed.

(** [0 ** w] is 0 for a positive exponent and an error for a negative one. *)
Lemma float_pow_base_0 (w : R) :
  0 < w -> returns (float_pow 0 w) (PyFloat 0).
Proof.
  intro Hw. unfold float_pow.
  destruct (Req_dec_T w 0) as [E | _]; [lra |].
  destruct (Req_dec_T 0 0) as [_ | N]; [| contradiction].
  destruct (Rlt_dec w 0) as [L | _]; [lra | apply returns_ret].
Qed.

Lemma float_pow_base_0_neg (w : R) :
  w < 0 -> raises (float_pow 0 w) ZeroDivisionError.
Proof.
  intro Hw. unfold float_pow.
  destruct (Req_dec_T w 0) as [E | _]; [lra |].
  destruct (Req_dec_T 0 0) as [_ | N]; [| contradiction].
  destruct (Rlt_dec w 0) as [_ | N]; [apply raises_raise | lra].
Qed.

Lemma Int_part_IZR (z : Z) : Int_part (IZR z) = z.
Proof. symmetry. apply Int_part_spec. lra. Qed.

(** A negative base with a whole exponent: the power of the absolute value,
    negated for an odd exponent. *)
Lemma float_pow_neg_int (v : R) (z : Z) :
  v < 0 -> z <> 0%Z ->
  returns (float_pow v (IZR z))
          (PyFloat (if Z.odd z then - Rpower (- v) (IZR z)
                    else Rpower (- v) (IZR z))).
Proof.
  intros Hv Hz. unfold float_pow.
  destruct (Req_dec_T (IZR z) 0) as [E | _].
  { apply eq_IZR in E. contradiction. }
  destruct (Req_dec_T v 0) as [E | _]; [lra |].
  destruct (Rlt_dec v 0) as [_ | N]; [| lra].
  destruct (is_integral (IZR z)) as [_ | N].
  2:{ rewrite Int_part_IZR in N. contradiction. }
  rewrite Int_part_IZR.
  destruct (Req_dec_T (- v) 1) as [-> | _].
  - rewrite Rpower_base_1. apply returns_ret.
  - apply returns_ret.
Qed.

(** ** The functions on positive arguments *)

Lemma utility_pos (x1 alpha x2 beta : R) :
  0 < x1 -> 0 < x2 ->
  returns (utility x1 alpha x2 beta)
          (PyFloat (Rpower x1 alpha * Rpower x2 beta)).
Proof.
  intros H1 H2. unfold utility.
  eapply returns_bind; [apply float_pow_pos; assumption |].
  eapply returns_bind; [apply float_pow_pos; assumption |].
  apply returns_ret.
Qed.

Lemma budgetconst_returns (m p1 p2 x1 : R) :
  p2 <> 0 -> returns (budgetconst m p1 p2 x1) (m / p2 - p1 / p2 * x1).
Proof.
  intro Hp. unfold budgetconst.
  eapply returns_bind; [apply float_truediv_returns; assumption |].
  eapply returns_bind; [apply float_truediv_returns; assumption |].
  apply returns_ret.
Qed.

Lemma isoquant_pos (x1 alpha beta u : R) :
  0 < x1 -> beta <> 0 -> 0 < u ->
  returns (isoquant x1 alpha beta (PyFloat u))
          (PyFloat (Rpower (u / Rpower x1 alpha) (1 / beta))).
Proof.
  intros Hx Hb Hu. unfold isoquant.
  pose proof (Rpower_pos x1 alpha) as Hp.
  eapply returns_bind; [apply float_pow_pos; assumption |].
  eapply returns_bind.
  { cbn [py_truediv]. eapply returns_bind;
      [apply float_truediv_returns; lra | apply returns_ret]. }
  eapply returns_bind; [apply float_truediv_returns; assumption |].
  cbn [py_pow]. apply float_pow_pos.
  apply Rdiv_lt_0_compat; assumption.
Qed.

(** Side conditions left by [field]: denominators built from positive
    quantities. *)
Ltac nonzero := repeat split; first [lra | nra].

Section Optimum.

Variables p1 p2 alpha beta m : R.
Hypothesis alpha_pos : 0 < alpha.
Hypothesis beta_pos : 0 < beta.
Hypothesis p1_pos : 0 < p1.
Hypothesis p2_pos : 0 < p2.
Hypothesis m_pos : 0 < m.

(** The closed form of the notebook. *)
Let x2 : R := m / (alpha / beta * p2 + p2).
Let x1 : R := alpha / beta * (p2 / p1) * x2.
Let u : R := Rpower x1 alpha * Rpower x2 beta.

Lemma share_pos : 0 < alpha / beta.
Proof. apply Rdiv_lt_0_compat; assumption. Qed.

Lemma denominator_pos : 0 < alpha / beta * p2 + p2.
Proof. pose proof share_pos. nra. Qed.

Lemma x2_pos : 0 < x2.
Proof. apply Rdiv_lt_0_compat; [assumption | apply denominator_pos]. Qed.

Lemma x1_pos : 0 < x1.
Proof.
  unfold x1. pose proof share_pos. pose proof x2_pos.
  assert (0 < p2 / p1) by (apply Rdiv_lt_0_compat; assumption).
  apply Rmult_lt_0_compat; [apply Rmult_lt_0_compat |]; assumption.
Qed.

Lemma find_optimal_pos :
  returns (find_optimal p1 p2 alpha beta (Some m)) (x1, x2, PyFloat u).
Proof.
  pose proof denominator_pos. unfold find_optimal.
  eapply returns_bind; [apply float_truediv_returns; lra |].
  eapply returns_bind; [apply float_truediv_returns; lra |].
  eapply returns_bind; [apply float_truediv_returns; lra |].
  eapply returns_bind; [apply float_truediv_returns; lra |].
  eapply returns_bind; [apply utility_pos; [apply x1_pos | apply x2_pos] |].
  apply returns_ret.
Qed.

Lemma budget_exhausted : x1 * p1 + x2 * p2 = m.
Proof.
  pose proof denominator_pos. unfold x1, x2. field. nonzero.
Qed.

Lemma budget_line_at_x1 : m / p2 - p1 / p2 * x1 = x2.
Proof.
  pose proof denominator_pos. unfold x1, x2. field. nonzero.
Qed.

Lemma isoquant_at_x1 : Rpower (u / Rpower x1 alpha) (1 / beta) = x2.
Proof.
  pose proof (Rpower_pos x1 alpha). unfold u.
  replace (Rpower x1 alpha * Rpower x2 beta / Rpower x1 alpha)
    with (Rpower x2 beta) by (field; lra).
  rewrite Rpower_mult.
  replace (beta * (1 / beta)) with 1 by (field; lra).
  apply Rpower_1, x2_pos.
Qed.

Lemma ratio_closed_form : x1 / x2 = alpha / beta * (p2 / p1).
Proof. pose proof x2_pos. unfold x1. field. nonzero. Qed.

End Optimum.

(** ** The closed form *)

(** Once the three divisions go through, the result is the closed form and
    whatever [utility] makes of it. *)
Lemma find_optimal_steps (p1 p2 alpha beta m x1 x2 : R) (u : pyval) :
  beta <> 0 -> alpha / beta * p2 + p2 <> 0 -> p1 <> 0 ->
  x2 = m / (alpha / beta * p2 + p2) ->
  x1 = alpha / beta * (p2 / p1) * x2 ->
  returns (utility x1 alpha x2 beta) u ->
  returns (find_optimal p1 p2 alpha beta (Some m)) (x1, x2, u).
Proof.
  intros Hb Hd Hp -> -> Hu. unfold find_optimal.
  eapply returns_bind; [apply float_truediv_returns; assumption |].
  eapply returns_bind; [apply float_truediv_returns; assumption |].
  eapply returns_bind; [apply float_truediv_returns; assumption |].
  eapply returns_bind; [apply float_truediv_returns; assumption |].
  eapply returns_bind; [exact Hu | apply returns_ret].
Qed.

(** In exact arithmetic, on positive arguments [find_optimal] returns the
    closed form and [u = x1^alpha * x2^beta], which is what [utility]
    returns. *)
Theorem find_optimal_closed_form (p1 p2 alpha beta m : R) :
  0 < alpha -> 0 < beta -> 0 < p1 -> 0 < p2 -> 0 < m ->
  let x2 := m / (alpha / beta * p2 + p2) in
  let x1 := alpha / beta * (p2 / p1) * x2 in
  let u := PyFloat (Rpower x1 alpha * Rpower x2 beta) in
  returns (find_optimal p1 p2 alpha beta (Some m)) (x1, x2, u)
  /\ returns (utility x1 alpha x2 beta) u.
Proof.
  intros Ha Hb H1 H2 Hm. split.
  - apply find_optimal_pos; assumption.
  - apply utility_pos; [apply x1_pos | apply x2_pos]; assumption.
Qed.

(** In exact arithmetic, on positive arguments the bundle costs exactly
    [m]. *)
Theorem find_optimal_exhausts_budget (p1 p2 alpha beta m : R) :
  0 < alpha -> 0 < beta -> 0 < p1 -> 0 < p2 -> 0 < m ->
  exists x1 x2 u,
    returns (find_optimal p1 p2 alpha beta (Some m)) (x1, x2, u)
    /\ x1 * p1 + x2 * p2 = m.
Proof.
  intros Ha Hb H1 H2 Hm. do 3 eexists. split.
  - apply find_optimal_pos; assumption.
  - apply budget_exhausted; assumption.
Qed.

(** In exact arithmetic, on positive arguments the isoquant through the
    optimum and the budget line both pass through [(x1, x2)]. *)
Theorem isoquant_meets_budget_line (p1 p2 alpha beta m : R) :
  0 < alpha -> 0 < beta -> 0 < p1 -> 0 < p2 -> 0 < m ->
  exists x1 x2 u,
    returns (find_optimal p1 p2 alpha beta (Some m)) (x1, x2, u)
    /\ returns (isoquant x1 alpha beta u) (PyFloat x2)
    /\ returns (budgetconst m p1 p2 x1) x2.
Proof.
  intros Ha Hb H1 H2 Hm. do 3 eexists. split; [| split].
  - apply find_optimal_pos; assumption.
  - eapply returns_eq; [| apply isoquant_pos].
    + f_equal. apply isoquant_at_x1; assumption.
    + apply x1_pos; assumption.
    + lra.
    + apply Rmult_lt_0_compat; apply Rpower_pos.
  - eapply returns_eq; [| apply budgetconst_returns; lra].
    apply budget_line_at_x1; assumption.
Qed.

(** In exact arithmetic [find_optimal(1, 1, 0.5, 0.5, 10)] is [(5, 5, 5)]. *)
Theorem find_optimal_symmetric_example :
  returns (find_optimal 1 1 0.5 0.5 (Some 10)) (5, 5, PyFloat 5).
Proof.
  replace (PyFloat 5) with (PyFloat (Rpower 5 0.5 * Rpower 5 0.5)).
  - apply find_optimal_steps; try lra.
    apply utility_pos; lra.
  - rewrite <- Rpower_plus. replace (0.5 + 0.5) with 1 by lra.
    rewrite Rpower_1 by lra. reflexivity.
Qed.

(** On positive arguments the ratio [x1/x2] of the optimum is
    [(alpha/beta) * (p2/p1)]. *)
Lemma proportion_pos (p1 p2 alpha beta m : R) :
  0 < alpha -> 0 < beta -> 0 < p1 -> 0 < p2 -> 0 < m ->
  returns (proportion p1 p2 alpha beta (Some m)) (alpha / beta * (p2 / p1)).
Proof.
  intros Ha Hb H1 H2 Hm. unfold proportion.
  eapply returns_bind; [apply find_optimal_pos; assumption |].
  cbv beta iota zeta.
  pose proof (x2_pos _ _ _ _ Ha Hb H2 Hm) as Hx. cbv zeta in Hx.
  eapply returns_eq; [| apply float_truediv_returns; lra].
  apply ratio_closed_form; assumption.
Qed.

(** In exact arithmetic, multiplying both prices by the same [k > 0] leaves
    the ratio [x1/x2] unchanged. *)
Theorem proportion_price_scaling (p1 p2 alpha beta m k : R) :
  0 < alpha -> 0 < beta -> 0 < p1 -> 0 < p2 -> 0 < m -> 0 < k ->
  exists r,
    returns (proportion p1 p2 alpha beta (Some m)) r
    /\ returns (proportion (k * p1) (k * p2) alpha beta (Some m)) r.
Proof.
  intros Ha Hb H1 H2 Hm Hk. exists (alpha / beta * (p2 / p1)). split.
  - apply proportion_pos; assumption.
  - eapply returns_eq; [| apply proportion_pos; try assumption; nra].
    field. lra.
Qed.

(** In exact arithmetic, on positive arguments both quantities are
    positive. *)
Theorem find_optimal_bundle_positive (p1 p2 alpha beta m : R) :
  0 < alpha -> 0 < beta -> 0 < p1 -> 0 < p2 -> 0 < m ->
  exists x1 x2 u,
    returns (find_optimal p1 p2 alpha beta (Some m)) (x1, x2, u)
    /\ 0 < x1 /\ 0 < x2.
Proof.
  intros Ha Hb H1 H2 Hm. do 3 eexists. split; [| split].
  - apply find_optimal_pos; assumption.
  - apply x1_pos; assumption.
  - apply x2_pos; assumption.
Qed.

(** * The specification, claim by claim: what holds as stated or in exact
      arithmetic *)



(** C10: the income [m] defaults to 1: a call that leaves it out is the
    call with [m = 1]. *)
Theorem find_optimal_default_income (p1 p2 alpha beta : R) :
  find_optimal p1 p2 alpha beta None = find_optimal p1 p2 alpha beta (Some 1).
Proof. reflexivity. Qed.

(** ** The closed form as expenditure shares *)

Lemma Rdiv_zero_iff (a b : R) : b <> 0 -> (a / b = 0 <-> a = 0).
Proof.
  intro Hb. split; intro H.
  - replace a with (a / b * b) by (field; assumption). rewrite H. ring.
  - rewrite H. field. assumption.
Qed.

Lemma find_optimal_steps_raise (p1 p2 alpha beta m x1 x2 : R) (e : exn) :
  beta <> 0 -> alpha / beta * p2 + p2 <> 0 -> p1 <> 0 ->
  x2 = m / (alpha / beta * p2 + p2) ->
  x1 = alpha / beta * (p2 / p1) * x2 ->
  raises (utility x1 alpha x2 beta) e ->
  raises (find_optimal p1 p2 alpha beta (Some m)) e.
Proof.
  intros Hb Hd Hp -> -> Hu. unfold find_optimal.
  eapply raises_bind_after; [apply float_truediv_returns; assumption |].
  eapply raises_bind_after; [apply float_truediv_returns; assumption |].
  eapply raises_bind_after; [apply float_truediv_returns; assumption |].
  eapply raises_bind_after; [apply float_truediv_returns; assumption |].
  apply raises_bind. exact Hu.
Qed.

Lemma denominator_zero_iff (p2 alpha beta : R) :
  beta <> 0 -> (alpha / beta * p2 + p2 = 0 <-> p2 = 0 \/ alpha + beta = 0).
Proof.
  intro Hb.
  replace (alpha / beta * p2 + p2) with (p2 * (alpha + beta) / beta)
    by (field; assumption).
  rewrite (Rdiv_zero_iff _ _ Hb). split.
  - apply Rmult_integral.
  - intros [-> | ->]; ring.
Qed.

Section Shares.

Variables p1 p2 alpha beta m : R.
Hypothesis beta_nonzero : beta <> 0.
Hypothesis p1_nonzero : p1 <> 0.
Hypothesis p2_nonzero : p2 <> 0.
Hypothesis sum_nonzero : alpha + beta <> 0.

(** The closed form, rearranged: each good gets its exponent's share of the
    income. *)
Let x1 : R := alpha * m / ((alpha + beta) * p1).
Let x2 : R := beta * m / ((alpha + beta) * p2).

Lemma shares_denominator : alpha / beta * p2 + p2 <> 0.
Proof.
  intro E. apply denominator_zero_iff in E; [| assumption]. tauto.
Qed.

Lemma shares_x2 : x2 = m / (alpha / beta * p2 + p2).
Proof.
  pose proof shares_denominator as D. unfold x2.
  apply Rmult_eq_reg_r with (alpha / beta * p2 + p2); [| exact D].
  unfold Rdiv at 3. rewrite Rmult_assoc, Rinv_l, Rmult_1_r by exact D.
  field. repeat split; assumption.
Qed.

Lemma shares_x1 : x1 = alpha / beta * (p2 / p1) * x2.
Proof. unfold x1, x2. field. repeat split; assumption. Qed.


Lemma shares_raises (e : exn) :
  raises (utility x1 alpha x2 beta) e ->
  raises (find_optimal p1 p2 alpha beta (Some m)) e.
Proof.
  apply find_optimal_steps_raise;
    [assumption | apply shares_denominator | assumption
     | apply shares_x2 | apply shares_x1].
Qed.

Lemma shares_x1_zero : x1 = 0 <-> alpha = 0 \/ m = 0.
Proof.
  unfold x1. rewrite Rdiv_zero_iff.
  - split; [apply Rmult_integral | intros [-> | ->]; ring].
  - apply Rmult_integral_contrapositive. split; assumption.
Qed.

Lemma shares_x2_zero : x2 = 0 <-> m = 0.
Proof.
  unfold x2. rewrite Rdiv_zero_iff.
  - split; [| intros ->; ring].
    intro E. apply Rmult_integral in E. tauto.
  - apply Rmult_integral_contrapositive. split; assumption.
Qed.

Lemma shares_budget : x1 * p1 + x2 * p2 = m.
Proof. unfold x1, x2. field. repeat split; assumption. Qed.

End Shares.

Section Optimality.

Variables p1 p2 alpha beta m : R.
Hypothesis alpha_pos : 0 < alpha.
Hypothesis beta_pos : 0 < beta.
Hypothesis p1_pos : 0 < p1.
Hypothesis p2_pos : 0 < p2.
Hypothesis m_pos : 0 < m.

Let x1 : R := alpha * m / ((alpha + beta) * p1).
Let x2 : R := beta * m / ((alpha + beta) * p2).
Let u : R := Rpower x1 alpha * Rpower x2 beta.





End Optimality.

(** ** The interactive figure's call *)






(** ** What the code does *)

Module Binary64.
Import Bool Floats.
Import B64.
Local Open Scope string_scope.
Local Open Scope float_scope.
Set Warnings "-inexact-float".

(** [c] consults the platform only and leaves the world as it is. *)
Definition platform_only {A} (c : M A) : Prop :=
  exists f, forall w, c w = (f (platform w), w).

Lemma platform_only_ret {A} (a : A) : platform_only (ret a).
Proof. exists (fun _ => Return a). reflexivity. Qed.

Lemma platform_only_raise {A} (e : exn) : platform_only (@raise A e).
Proof. exists (fun _ => Raise e). reflexivity. Qed.

Lemma platform_only_libm_call {A} (f : libm -> A) :
  platform_only (libm_call f).
Proof. exists (fun L => Return (f L)). reflexivity. Qed.

Lemma platform_only_bind {A B} (c : M A) (k : A -> M B) :
  platform_only c -> (forall a, platform_only (k a)) ->
  platform_only (bind c k).
Proof.
  intros [f Hf] Hk.
  exists (fun L => match f L with
                   | Return a => fst (k a {| platform := L; globals := fun _ => None |})
                   | Raise e => Raise e
                   end).
  intro w. unfold bind. rewrite Hf.
  destruct (f (platform w)) as [a | e]; [| reflexivity].
  destruct (Hk a) as [g Hg]. rewrite !Hg. reflexivity.
Qed.

Ltac platform_step :=
  match goal with
  | |- platform_only (ret _) => apply platform_only_ret
  | |- platform_only (raise _) => apply platform_only_raise
  | |- platform_only (libm_call _) => apply platform_only_libm_call
  | |- platform_only (bind _ _) => apply platform_only_bind; [| intro]
  | |- platform_only (if ?c then _ else _) => destruct c
  | |- platform_only (let '(_, _) := ?p in _) => destruct p
  | |- platform_only (match ?e with E0 => _ | ERANGE => _ | EDOM => _ end) =>
      destruct e
  end.

Lemma float_truediv_platform_only (a b : float) :
  platform_only (float_truediv a b).
Proof. unfold float_truediv. repeat platform_step. Qed.

Lemma complex_pow_platform_only (a : complex) (w : float) :
  platform_only (complex_pow a w).
Proof. unfold complex_pow. repeat platform_step. Qed.

Lemma float_pow_platform_only (iv iw : float) :
  platform_only (float_pow iv iw).
Proof.
  unfold float_pow.
  repeat first [apply complex_pow_platform_only | platform_step].
Qed.

Lemma utility_platform_only (x1 alpha x2 beta : float) :
  platform_only (utility x1 alpha x2 beta).
Proof.
  unfold utility.
  repeat first [apply float_pow_platform_only | platform_step].
Qed.

(** Calling the notebook's [utility] function object is running its body. *)
Lemma utility_call (x1 alpha x2 beta : float) (w : world) :
  utility x1 alpha x2 beta w
  = (utility_function (platform w) x1 alpha x2 beta, w).
Proof.
  destruct (utility_platform_only x1 alpha x2 beta) as [f Hf].
  unfold utility_function. rewrite !Hf. reflexivity.
Qed.

Lemma run_utility (L : libm) (x1 alpha x2 beta : float) :
  run L (utility x1 alpha x2 beta) = utility_function L x1 alpha x2 beta.
Proof. unfold run. rewrite utility_call. reflexivity. Qed.

Lemma all_below_spec (n : nat) (P : nat -> bool) :
  all_below n P = true -> forall k, (k < n)%nat -> P k = true.
Proof.
  induction n as [| n IH]; intros H k Hk; [lia |].
  cbn in H. apply andb_true_iff in H. destruct H as [H0 H1].
  destruct (Nat.eq_dec k n) as [-> | N]; [exact H0 |].
  apply IH; [exact H1 | lia].
Qed.

Lemma all_settings_spec (P : float -> float -> float -> float -> float -> bool) :
  all_settings P = true ->
  forall alpha beta p1 p2 m,
    slider_setting alpha beta p1 p2 m -> P alpha beta p1 p2 m = true.
Proof.
  intros H alpha beta p1 p2 m
    ((i & Hi & ->) & (j & Hj & ->) & (k & Hk & ->) & (l & Hl & ->) & (n & Hn & ->)).
  unfold all_settings in H.
  destruct i as [| i]; [lia |]. destruct j as [| j]; [lia |].
  destruct k as [| k]; [lia |]. destruct l as [| l]; [lia |].
  destruct n as [| n]; [lia |].
  pose proof (all_below_spec _ _ H i ltac:(lia)) as H1. cbv beta zeta in H1.
  pose proof (all_below_spec _ _ H1 j ltac:(lia)) as H2. cbv beta zeta in H2.
  pose proof (all_below_spec _ _ H2 k ltac:(lia)) as H3. cbv beta zeta in H3.
  pose proof (all_below_spec _ _ H3 l ltac:(lia)) as H4. cbv beta zeta in H4.
  exact (all_below_spec _ _ H4 n ltac:(lia)).
Qed.

Lemma settings_checked : all_settings setting_ok = true.
Proof. vm_cast_no_check (eq_refl true). Qed.



(** ** The outcome of [find_optimal] *)

Lemma find_optimal_run (L : libm) (p1 p2 alpha beta m : float) :
  run L (find_optimal p1 p2 alpha beta (Some m))
  = if (beta =? 0) || (alpha / beta * p2 + p2 =? 0) || (p1 =? 0)
    then Raise ZeroDivisionError
    else with_bundle (x1_of p1 p2 alpha beta m) (x2_of p2 alpha beta m)
           (run L (utility (x1_of p1 p2 alpha beta m) alpha
                           (x2_of p2 alpha beta m) beta)).
Proof.
  rewrite run_utility.
  unfold run, find_optimal, bind, float_truediv, raise, ret.
  destruct (beta =? 0); [reflexivity |].
  destruct (alpha / beta * p2 + p2 =? 0); [reflexivity |].
  destruct (p1 =? 0); [reflexivity |].
  cbn. unfold x1_of, x2_of.
  destruct (utility_function L _ alpha _ beta); reflexivity.
Qed.

(** C1, as the code has it: for every binary64 input, of any sign or size,
    [find_optimal] evaluates [x2 = m / ((alpha/beta) * p2 + p2)] and
    [x1 = (alpha/beta) * (p2/p1) * x2] operation by operation; it raises
    [ZeroDivisionError] when [beta], the denominator of [x2] or [p1] is
    zero, and otherwise ends as [utility(x1, alpha, x2, beta)] ends: it
    returns [(x1, x2, u)] with the very [u] that [utility] returns, or
    raises what [utility] raises. *)
Theorem find_optimal_outcome (L : libm) (p1 p2 alpha beta m : float) :
  let x2 := m / (alpha / beta * p2 + p2) in
  let x1 := alpha / beta * (p2 / p1) * x2 in
  run L (find_optimal p1 p2 alpha beta (Some m))
  = if (beta =? 0) || (alpha / beta * p2 + p2 =? 0) || (p1 =? 0)
    then Raise ZeroDivisionError
    else with_bundle x1 x2 (run L (utility x1 alpha x2 beta)).
Proof. apply find_optimal_run. Qed.

(** C1 fails as stated: [find_optimal(1e200, 1e-200, 1e200, 1e-200, 1)]
    returns [(nan, 0.0, nan)], and NaN compares equal to nothing. *)
Lemma nan_bundle_not_equal : ~ closed_form_on_positive.
Proof.
  intro H.
  destruct (H sample_libm 1e200 1e-200 1e200 1e-200 1)
    as (x1 & x2 & u & u' & R & _ & E & _).
  { repeat split. }
  vm_compute in R. injection R as <- <- <-.
  vm_compute in E. discriminate E.
Qed.

(** ** Signs *)

Lemma binary_round_aux_sign (s : bool) (m e : Z) (l : location) :
  match binary_round_aux prec emax s m e l with
  | S754_nan => True
  | S754_zero s' | S754_infinity s' | S754_finite s' _ _ => s' = s
  end.
Proof.
  unfold binary_round_aux.
  destruct (shr_fexp prec emax m e l) as [r1 e1].
  destruct (shr_fexp prec emax _ e1 loc_Exact) as [r2 e2].
  destruct (shr_m r2); [reflexivity | | exact I].
  destruct (e2 <=? emax - prec)%Z; reflexivity.
Qed.

Lemma binary_round_aux_nonneg (m e : Z) (l : location) :
  nonneg_sf (binary_round_aux prec emax false m e l).
Proof.
  pose proof (binary_round_aux_sign false m e l) as H. unfold nonneg_sf.
  destruct (binary_round_aux prec emax false m e l); exact H.
Qed.

Lemma SFmul_nonneg (x y : spec_float) :
  nonneg_sf x -> nonneg_sf y -> nonneg_sf (SF64mul x y).
Proof.
  unfold SF64mul, SFmul.
  destruct x as [sx | sx | | sx mx ex], y as [sy | sy | | sy my ey];
    cbn [nonneg_sf]; intros Hx Hy; subst; try reflexivity; try exact I.
  apply binary_round_aux_nonneg.
Qed.

Lemma SFdiv_nonneg (x y : spec_float) :
  nonneg_sf x -> nonneg_sf y -> nonneg_sf (SF64div x y).
Proof.
  unfold SF64div, SFdiv.
  destruct x as [sx | sx | | sx mx ex], y as [sy | sy | | sy my ey];
    cbn [nonneg_sf]; intros Hx Hy; subst; try reflexivity; try exact I.
  destruct (SFdiv_core_binary prec emax (Zpos mx) ex (Zpos my) ey)
    as [[mz ez] lz].
  apply binary_round_aux_nonneg.
Qed.

Lemma SFadd_nonneg (x y : spec_float) :
  nonneg_sf x -> nonneg_sf y -> nonneg_sf (SF64add x y).
Proof.
  unfold SF64add, SFadd.
  destruct x as [sx | sx | | sx mx ex], y as [sy | sy | | sy my ey];
    cbn [nonneg_sf]; intros Hx Hy; subst; try reflexivity; try exact I.
  cbn [cond_Zopp Z.add]. unfold binary_normalize, binary_round.
  destruct (shl_align _ _ _) as [mz ez].
  apply binary_round_aux_nonneg.
Qed.

Lemma mul_nonneg (x y : float) : nonneg x -> nonneg y -> nonneg (x * y).
Proof. unfold nonneg. rewrite mul_spec. apply SFmul_nonneg. Qed.

Lemma div_nonneg (x y : float) : nonneg x -> nonneg y -> nonneg (x / y).
Proof. unfold nonneg. rewrite div_spec. apply SFdiv_nonneg. Qed.

Lemma add_nonneg (x y : float) : nonneg x -> nonneg y -> nonneg (x + y).
Proof. unfold nonneg. rewrite add_spec. apply SFadd_nonneg. Qed.

Lemma positive_nonneg (x : float) : (0 <? x) = true -> nonneg x.
Proof.
  unfold nonneg. rewrite ltb_spec.
  change (Prim2SF 0) with (S754_zero false).
  destruct (Prim2SF x) as [s | s | | s m e]; cbn;
    try discriminate; destruct s; try discriminate; reflexivity.
Qed.

Lemma nonneg_not_negative (x : float) : nonneg x -> not_negative x.
Proof.
  unfold nonneg, not_negative. rewrite ltb_spec.
  change (Prim2SF 0) with (S754_zero false).
  destruct (Prim2SF x) as [s | s | | s m e]; cbn; intro H; subst; reflexivity.
Qed.

(** On positive arguments neither quantity of the closed form is negative,
    whatever overflows or underflows on the way. *)
Lemma closed_form_not_negative (p1 p2 alpha beta m : float) :
  positive5 p1 p2 alpha beta m ->
  not_negative (x1_of p1 p2 alpha beta m)
  /\ not_negative (x2_of p2 alpha beta m).
Proof.
  intros (Ha & Hb & H1 & H2 & Hm).
  apply positive_nonneg in Ha, Hb, H1, H2, Hm.
  assert (R : nonneg (alpha / beta)) by (apply div_nonneg; assumption).
  assert (X2 : nonneg (x2_of p2 alpha beta m)).
  { unfold x2_of. apply div_nonneg; [assumption |].
    apply add_nonneg; [apply mul_nonneg |]; assumption. }
  split; apply nonneg_not_negative; [| exact X2].
  unfold x1_of. apply mul_nonneg; [apply mul_nonneg |]; try assumption.
  apply div_nonneg; assumption.
Qed.


Lemma find_optimal_returns (L : libm) (p1 p2 alpha beta m x1 x2 : float)
    (u : pyval) :
  run L (find_optimal p1 p2 alpha beta (Some m)) = Return (x1, x2, u) ->
  x1 = x1_of p1 p2 alpha beta m /\ x2 = x2_of p2 alpha beta m
  /\ run L (utility x1 alpha x2 beta) = Return u.
Proof.
  rewrite find_optimal_run.
  destruct ((beta =? 0) || (alpha / beta * p2 + p2 =? 0) || (p1 =? 0));
    [discriminate |].
  destruct (run L (utility _ alpha _ beta)) as [v | e] eqn:E; [| discriminate].
  cbn. intro H. injection H as <- <- <-. repeat split. exact E.
Qed.

(** ** On the sliders *)



Lemma setting_facts (alpha beta p1 p2 m : float) :
  slider_setting alpha beta p1 p2 m ->
  let x2 := x2_of p2 alpha beta m in
  let x1 := x1_of p1 p2 alpha beta m in
  (beta =? 0) || (alpha / beta * p2 + p2 =? 0) || (p1 =? 0) = false
  /\ (p2 =? 0) = false /\ (x2 =? 0) = false
  /\ (0 <? x1) = true /\ (x1 <? 24) = true
  /\ (0 <? x2) = true /\ (x2 <? 24) = true
  /\ (abs (x1 * p1 + x2 * p2 - m) <=? 0x1p-50 * m) = true
  /\ (abs (m / p2 - p1 / p2 * x1 - x2) <=? 0x1p-46) = true.
Proof.
  intro S. pose proof (all_settings_spec _ settings_checked _ _ _ _ _ S) as K.
  unfold setting_ok in K.
  repeat (apply andb_true_iff in K; destruct K as [K ?]).
  apply negb_true_iff in K.
  repeat match goal with H : negb _ = true |- _ => apply negb_true_iff in H end.
  cbv zeta. repeat split; assumption.
Qed.










(** ** Arguments that are rejected, and arguments that are not *)

(** C3, as the code has it: [find_optimal] checks nothing itself and there
    is no [DomainError]; whenever [beta] or [p1] is zero (of either sign)
    it raises [ZeroDivisionError], whatever the other arguments are,
    instead of returning a value. *)
Theorem zero_beta_or_p1_rejected
    (L : libm) (p1 p2 alpha beta : float) (m : option float) :
  (beta =? 0) = true \/ (p1 =? 0) = true ->
  run L (find_optimal p1 p2 alpha beta m) = Raise ZeroDivisionError.
Proof.
  intro H.
  assert (E : forall v, run L (find_optimal p1 p2 alpha beta (Some v))
                        = Raise ZeroDivisionError).
  { intro v. rewrite find_optimal_run.
    destruct H as [-> | ->]; [reflexivity |].
    rewrite orb_true_r. reflexivity. }
  destruct m as [v |]; [apply E | apply (E 1)].
Qed.

Lemma zero_beta_or_p1_rejected_witness :
  run sample_libm (find_optimal 1 1 0.5 (-0) (Some 10))
  = Raise ZeroDivisionError.
Proof.
  apply (zero_beta_or_p1_rejected sample_libm 1 1 0.5 (-0) (Some 10)).
  left. reflexivity.
Defined.

(** C3 fails as stated: [find_optimal(1, 1, 1, 1, 0)] has [m = 0] and
    returns [(0.0, 0.0, 0.0)]. *)
Lemma zero_income_accepted : ~ rejects_non_positive.
Proof.
  intro H.
  destruct (H sample_libm 1 1 1 1 0) as [e R].
  { do 4 right. reflexivity. }
  vm_compute in R. discriminate R.
Qed.

(** A zero [p2] is not always rejected either:
    [find_optimal(1, 0, 1e200, 1e-200, 1)] returns [(nan, nan, nan)]. *)
Lemma zero_p2_accepted (L : libm) :
  run L (find_optimal 1 0 1e200 1e-200 (Some 1))
  = Return (nan, nan, PyFloat nan).
Proof. reflexivity. Qed.

(** ** The symmetric example *)

(** A power that reaches the platform's [pow] and comes back finite. *)
Lemma float_pow_libm (L : libm) (iv iw ix : float) :
  (iw =? 0) = false -> is_nan iv = false -> is_nan iw = false ->
  is_infinity iw = false -> is_infinity iv = false ->
  (iv =? 0) = false -> (iv <? 0) = false -> (iv =? 1) = false ->
  pow L iv iw = (ix, E0) -> is_huge ix = false ->
  run L (float_pow iv iw) = Return (PyFloat ix).
Proof.
  intros H1 H2 H3 H4 H5 H6 H7 H8 P H.
  unfold run, float_pow.
  rewrite H1, H2, H3, H4, H5, H6, H7. cbn [andb]. cbv iota.
  rewrite H8. unfold bind, libm_call. cbn [fst platform notebook].
  cbv beta iota. cbn [platform notebook]. rewrite P, H. reflexivity.
Qed.

(** C5, as the code has it: [find_optimal(1, 1, 0.5, 0.5, 10)] computes
    [x1 = 5.0] and [x2 = 5.0] exactly, and [u] is the product of the
    platform's [pow(5.0, 0.5)] with itself; where that is the correctly
    rounded square root of 5, [u] is [5.000000000000001], not 5. *)
Theorem symmetric_example (L : libm) :
  pow L 5 0.5 = (sqrt 5, E0) ->
  run L (find_optimal 1 1 0.5 0.5 (Some 10))
  = Return (5, 5, PyFloat 0x1.4000000000001p+2).
Proof.
  intro H. rewrite find_optimal_run.
  change (x1_of 1 1 0.5 0.5 10) with 5.
  change (x2_of 1 0.5 0.5 10) with 5.
  change ((0.5 =? 0) || (0.5 / 0.5 * 1 + 1 =? 0) || (1 =? 0)) with false.
  cbv iota.
  assert (P : run L (float_pow 5 0.5) = Return (PyFloat (sqrt 5)))
    by (apply float_pow_libm; try reflexivity; exact H).
  destruct (float_pow_platform_only 5 0.5) as [f Hf].
  unfold run in *. rewrite Hf in P. cbn [fst platform notebook] in P.
  unfold utility, bind. rewrite !Hf. cbn [fst snd platform notebook].
  rewrite P. reflexivity.
Qed.

Lemma symmetric_example_witness :
  run sample_libm (find_optimal 1 1 0.5 0.5 (Some 10))
  = Return (5, 5, PyFloat 0x1.4000000000001p+2).
Proof. apply (symmetric_example sample_libm). reflexivity. Defined.

(** C5 fails as stated: on a platform whose [pow(5.0, 0.5)] is correctly
    rounded the third component is not 5. *)
Lemma symmetric_example_not_5 : ~ forall L, returns_5_5_5 L.
Proof.
  intro H. specialize (H sample_libm). unfold returns_5_5_5 in H.
  vm_compute in H. discriminate H.
Qed.

(** ** The round trip *)


(** ** Signs of the bundle *)

(** C8, as the code has it: on positive arguments the quantities that
    [find_optimal] returns are never negative, but each can be 0.0,
    infinite or, for [x1], NaN; at every position of the sliders both are
    positive and below 24. *)
Theorem bundle_not_negative
    (L : libm) (p1 p2 alpha beta m x1 x2 : float) (u : pyval) :
  positive5 p1 p2 alpha beta m ->
  run L (find_optimal p1 p2 alpha beta (Some m)) = Return (x1, x2, u) ->
  not_negative x1 /\ not_negative x2
  /\ (slider_setting alpha beta p1 p2 m ->
      (0 <? x1) = true /\ (x1 <? 24) = true
      /\ (0 <? x2) = true /\ (x2 <? 24) = true).
Proof.
  intros P R. apply find_optimal_returns in R. destruct R as (-> & -> & _).
  destruct (closed_form_not_negative _ _ _ _ _ P) as [N1 N2].
  split; [exact N1 | split; [exact N2 |]].
  intro S.
  destruct (setting_facts _ _ _ _ _ S) as (_ & _ & _ & A & B & C & D & _).
  auto.
Qed.

Lemma bundle_not_negative_witness :
  not_negative 5 /\ not_negative 5
  /\ (slider_setting 0.5 0.5 1 1 10 ->
      (0 <? 5) = true /\ (5 <? 24) = true
      /\ (0 <? 5) = true /\ (5 <? 24) = true).
Proof.
  apply (bundle_not_negative sample_libm 1 1 0.5 0.5 10 5 5
           (PyFloat 0x1.4000000000001p+2)).
  - repeat split.
  - reflexivity.
Defined.

(** C8 fails as stated, even for "non-negative": at
    [(1e200, 1e-200, 1e200, 1e-200, 1)] the returned [x1] is NaN. *)
Lemma nan_quantity : ~ bundle_non_negative.
Proof.
  intro H.
  destruct (H sample_libm 1e200 1e-200 1e200 1e-200 1)
    as (x1 & x2 & u & R & N & _).
  { repeat split. }
  vm_compute in R. injection R as <- <- <-.
  vm_compute in N. discriminate N.
Qed.

(** And "strictly positive" fails without NaN:
    [find_optimal(1, 1, 1e-200, 1e200, 1)] returns [(0.0, 1.0, 0.0)]. *)
Lemma zero_quantity (L : libm) :
  run L (find_optimal 1 1 1e-200 1e200 (Some 1))
  = Return (0, 1, PyFloat 0).
Proof. reflexivity. Qed.

(** ** What a call depends on *)




(** ** Overflow *)

(** A power whose value the platform's [pow] reports as infinite is an
    [OverflowError]. *)
Lemma float_pow_overflow (L : libm) (iv iw : float) :
  (iw =? 0) = false -> is_nan iv = false -> is_nan iw = false ->
  is_infinity iw = false -> is_infinity iv = false ->
  (iv =? 0) = false -> (iv <? 0) = false -> (iv =? 1) = false ->
  fst (pow L iv iw) = infinity -> snd (pow L iv iw) <> EDOM ->
  run L (float_pow iv iw) = Raise OverflowError.
Proof.
  intros H1 H2 H3 H4 H5 H6 H7 H8 P E.
  unfold run, float_pow.
  rewrite H1, H2, H3, H4, H5, H6, H7. cbn [andb]. cbv iota.
  rewrite H8. unfold bind, libm_call. cbn [fst platform notebook].
  cbv beta iota. cbn [platform notebook].
  destruct (pow L iv iw) as [ix e]. cbn [fst snd] in P, E. subst ix.
  destruct e; [reflexivity | reflexivity | contradiction].
Qed.

(** On positive arguments [find_optimal] can raise: in
    [find_optimal(1, 1, 400, 1, 100)] the quantity [x1] is just below 100,
    and where the platform's [pow] overflows on [x1 ** 400] the call ends
    in [OverflowError]. *)
Lemma find_optimal_overflow (L : libm) :
  let x1 := x1_of 1 1 400 1 100 in
  fst (pow L x1 400) = infinity -> snd (pow L x1 400) <> EDOM ->
  run L (find_optimal 1 1 400 1 (Some 100)) = Raise OverflowError.
Proof.
  intros x1 P E. rewrite find_optimal_run.
  change ((1 =? 0) || (400 / 1 * 1 + 1 =? 0) || (1 =? 0)) with false.
  cbv iota. fold x1.
  assert (F : run L (float_pow x1 400) = Raise OverflowError)
    by (apply float_pow_overflow; try reflexivity; assumption).
  destruct (float_pow_platform_only x1 400) as [f Hf].
  unfold run in *. rewrite Hf in F. cbn [fst] in F.
  unfold utility, bind. rewrite Hf. cbn [fst snd]. rewrite F. reflexivity.
Qed.

(** ** Further properties of the notebook's functions *)

Lemma eqb_zero_spec (x : float) :
  (x =? 0) = true -> exists s, Prim2SF x = S754_zero s.
Proof.
  rewrite eqb_spec. change (Prim2SF 0) with (S754_zero false).
  destruct (Prim2SF x) as [s | s | | s m e]; cbn; try discriminate.
  - intros _. exists s. reflexivity.
  - destruct s; discriminate.
  - destruct s; discriminate.
Qed.

Lemma ltb_zero_spec (x : float) :
  (x <? 0) = true ->
  Prim2SF x = S754_infinity true
  \/ exists m e, Prim2SF x = S754_finite true m e.
Proof.
  rewrite ltb_spec. change (Prim2SF 0) with (S754_zero false).
  destruct (Prim2SF x) as [s | s | | s m e]; cbn; try discriminate;
    destruct s; try discriminate; intros _; [left | right]; eauto.
Qed.

Lemma zero_facts (x : float) :
  (x =? 0) = true -> is_nan x = false /\ is_infinity x = false.
Proof.
  intro H. destruct (eqb_zero_spec x H) as [s E].
  unfold is_nan, is_infinity. rewrite !eqb_spec, abs_spec, E.
  change (Prim2SF infinity) with (S754_infinity false).
  split; reflexivity.
Qed.

Lemma negative_facts (x : float) :
  (x <? 0) = true -> is_nan x = false /\ (x =? 0) = false.
Proof.
  intro H. unfold is_nan. rewrite !eqb_spec.
  change (Prim2SF 0) with (S754_zero false).
  destruct (ltb_zero_spec x H) as [E | (m & e & E)]; rewrite E.
  - split; reflexivity.
  - split; [| reflexivity]. cbn.
    rewrite Z.compare_refl, Pos.compare_cont_refl. reflexivity.
Qed.

(** X1: [utility] fails where a zero quantity meets a negative exponent:
    [utility(x1, alpha, x2, beta)] with [x1] a zero of either sign and
    [alpha] negative and finite raises [ZeroDivisionError], whatever [x2]
    and [beta] are and on every platform. *)
Theorem utility_zero_to_negative_power
    (L : libm) (x1 alpha x2 beta : float) :
  (x1 =? 0) = true -> (alpha <? 0) = true -> is_infinity alpha = false ->
  run L (utility x1 alpha x2 beta) = Raise ZeroDivisionError.
Proof.
  intros Hx Ha Hi.
  destruct (zero_facts x1 Hx) as [N1 I1].
  destruct (negative_facts alpha Ha) as [N2 Z2].
  unfold run, utility, bind, float_pow.
  rewrite Z2, N1, N2, Hi, I1, Hx, Ha. reflexivity.
Qed.

Lemma utility_zero_to_negative_power_witness :
  run sample_libm (utility (-0) (-0.5) 3 0.5) = Raise ZeroDivisionError.
Proof.
  apply (utility_zero_to_negative_power sample_libm (-0) (-0.5) 3 0.5);
    reflexivity.
Defined.

(** X23: with both exponents zero (of either sign) [utility] is 1.0 for
    every pair of quantities, zero, infinite and NaN included: [x ** 0] is
    1.0 before anything else is looked at. *)
Theorem utility_exponents_zero (L : libm) (x1 alpha x2 beta : float) :
  (alpha =? 0) = true -> (beta =? 0) = true ->
  run L (utility x1 alpha x2 beta) = Return (PyFloat 1).
Proof.
  intros Ha Hb. unfold run, utility, bind, float_pow.
  rewrite Ha, Hb. reflexivity.
Qed.

Lemma utility_exponents_zero_witness :
  run sample_libm (utility nan 0 infinity (-0)) = Return (PyFloat 1).
Proof.
  apply (utility_exponents_zero sample_libm nan 0 infinity (-0)); reflexivity.
Defined.


(** X9: with [beta] a zero of either sign [isoquant] never returns a
    value: whatever the other arguments and the platform, the call ends in
    an exception. *)
Theorem isoquant_beta_zero
    (L : libm) (x1 alpha beta : float) (u : pyval) :
  (beta =? 0) = true ->
  exists e, run L (isoquant x1 alpha beta u) = Raise e.
Proof.
  intro Hb. unfold run, isoquant, bind.
  destruct (float_pow x1 alpha (notebook L)) as [[a | e] w1];
    [| exists e; reflexivity].
  destruct (py_truediv u a w1) as [[q | e] w2]; [| exists e; reflexivity].
  unfold float_truediv. rewrite Hb. exists ZeroDivisionError. reflexivity.
Qed.

Lemma isoquant_beta_zero_witness :
  exists e, run sample_libm (isoquant 2 0.5 0 (PyFloat 5)) = Raise e.
Proof.
  apply (isoquant_beta_zero sample_libm 2 0.5 0 (PyFloat 5)). reflexivity.
Defined.

(** X24: [find_optimal] looks the name [utility] up when it is called,
    after its divisions: with the name unbound the call raises
    [NameError], with the name bound to a number [TypeError], unless a
    division by zero comes first. *)
Theorem find_optimal_without_utility
    (p1 p2 alpha beta m : float) (w : world) :
  (forall f, globals w "utility" <> Some (Function f)) ->
  fst (find_optimal p1 p2 alpha beta (Some m) w)
  = if (beta =? 0) || (alpha / beta * p2 + p2 =? 0) || (p1 =? 0)
    then Raise ZeroDivisionError
    else match globals w "utility" with
         | None => Raise NameError
         | Some _ => Raise TypeError
         end.
Proof.
  intro H.
  unfold find_optimal, bind, float_truediv, load_global, raise, ret.
  destruct (beta =? 0); [reflexivity |].
  destruct (_ =? 0); [reflexivity |].
  destruct (p1 =? 0); [reflexivity |].
  cbn. destruct (globals w "utility") as [[v | f] |]; try reflexivity.
  exfalso. exact (H f eq_refl).
Qed.

Lemma find_optimal_without_utility_witness :
  fst (find_optimal 1 1 0.5 0.5 (Some 10)
         {| platform := sample_libm; globals := fun _ => None |})
  = if (0.5 =? 0) || (0.5 / 0.5 * 1 + 1 =? 0) || (1 =? 0)
    then Raise ZeroDivisionError
    else match (fun _ : string => @None obj) "utility" with
         | None => Raise NameError
         | Some _ => Raise TypeError
         end.
Proof.
  apply (find_optimal_without_utility 1 1 0.5 0.5 10
           {| platform := sample_libm; globals := fun _ => None |}).
  intros f H. discriminate H.
Defined.

End Binary64.
